(** * Typed multicall core of rtorrent-xmlrpc-bindings

    Shallow embedding of the crate's error type ([src/exec.rs]), the
    download-scoped multicall builder ([src/multicall/ops/d.rs]) and the
    parts of the multicall machinery they delegate to.  The raw multicall
    builder, the [op_const] macro and the value conversion layer are
    modules of the crate whose source is not included here; their
    definitions below are marked "Modelled from the spec:". *)

From Stdlib Require Import ZArith List String.
From stdpp Require Import base gmap strings list.
Import ListNotations.
Open Scope string_scope.
#[local] Set Warnings "-register-all".

(** ** Wire values ([xmlrpc::Value]) *)

(** An [f64] is carried as its IEEE-754 bit pattern: the core only passes
    doubles through, it never computes with them. *)
Record f64 := F64 { f64_bits : Z }.

Inductive Value :=
| VString (s : string)
| VInt64 (z : Z)
| VDouble (d : f64)
| VBool (b : bool)
| VBase64 (bs : list Byte.byte)
| VArray (vs : list Value).

(** ** Errors ([src/exec.rs], lines 81-113) *)

(** [xmlrpc::Error] is opaque to the crate: we only keep its message. *)
Record XmlRpcError := MkXmlRpcError { xe_msg : string }.

Inductive Error :=
| XmlRpc (x : XmlRpcError)
| UnexpectedStructure (s : string).

(** [impl From<xmlrpc::Error> for Error] *)
Definition from_xmlrpc (x : XmlRpcError) : Error := XmlRpc x.

(** [impl std::error::Error for Error { fn source }]: the [dyn Error] trait
    object returned is the wrapped [xmlrpc::Error] itself. *)
Definition source (e : Error) : option XmlRpcError :=
  match e with
  | XmlRpc xe => Some xe
  | _ => None
  end.

(** [impl std::fmt::Display for Error] ([src/exec.rs], lines 93-104).  The
    [Display] text of an [xmlrpc::Error] is its message. *)
Definition fmt (e : Error) : string :=
  match e with
  | XmlRpc xe => "XML-RPC: " ++ xe_msg xe
  | UnexpectedStructure us => "Unexpected XML structure: " ++ us
  end.

(** [Result<T> = std::result::Result<T, Error>] *)
Inductive result (A E : Type) :=
| Ok (a : A)
| Err (e : E).
Arguments Ok {A E} a.
Arguments Err {A E} e.

Definition rbind {A B E} (m : result A E) (k : A -> result B E) : result B E :=
  match m with
  | Ok a => k a
  | Err e => Err e
  end.

Notation "'let?' x := m 'in' k" := (rbind m (fun x => k))
  (at level 200, x name, m at level 100, k at level 200).

(** The [?] operator applied to a transport result: [From] wraps the error. *)
Definition lift_xmlrpc {A} (m : result A XmlRpcError) : result A Error :=
  match m with
  | Ok a => Ok a
  | Err x => Err (from_xmlrpc x)
  end.

(** [iter().map(f).collect::<Result<Vec<_>>>()]: stops at the first error. *)
Fixpoint collect_results {A B E} (f : A -> result B E) (l : list A)
  : result (list B) E :=
  match l with
  | [] => Ok []
  | a :: l' =>
      let? b := f a in
      let? bs := collect_results f l' in
      Ok (b :: bs)
  end.

(** ** Value conversion layer *)

(** The closed set of result types a column may declare. *)
Inductive ResultType := RText | RInt64 | RFloat64 | RBool | RBytes.

Inductive TypedValue :=
| TText (s : string)
| TInt64 (z : Z)
| TFloat64 (d : f64)
| TBool (b : bool)
| TBytes (bs : list Byte.byte).

Definition typed_tag (x : TypedValue) : ResultType :=
  match x with
  | TText _ => RText
  | TInt64 _ => RInt64
  | TFloat64 _ => RFloat64
  | TBool _ => RBool
  | TBytes _ => RBytes
  end.

(** The tag a wire value carries, when it is one of the five scalar kinds. *)
Definition wire_tag (v : Value) : option ResultType :=
  match v with
  | VString _ => Some RText
  | VInt64 _ => Some RInt64
  | VDouble _ => Some RFloat64
  | VBool _ => Some RBool
  | VBase64 _ => Some RBytes
  | VArray _ => None
  end.

Definition type_name (t : ResultType) : string :=
  match t with
  | RText => "string"
  | RInt64 => "i64"
  | RFloat64 => "f64"
  | RBool => "bool"
  | RBytes => "bytes"
  end.

Definition value_shape (v : Value) : string :=
  match v with
  | VString _ => "string"
  | VInt64 _ => "i64"
  | VDouble _ => "double"
  | VBool _ => "boolean"
  | VBase64 _ => "base64"
  | VArray _ => "array"
  end.

(** Modelled from the spec: [TryFromValue] ([value_conversion.rs], not in
    the sources).  Conversion is exact: a wire value whose tag differs from
    the expected type fails with [UnexpectedStructure] describing the
    expected and the actual shape. *)
Definition to_typed (v : Value) (expected : ResultType) : result TypedValue Error :=
  match v, expected with
  | VString s, RText => Ok (TText s)
  | VInt64 z, RInt64 => Ok (TInt64 z)
  | VDouble d, RFloat64 => Ok (TFloat64 d)
  | VBool b, RBool => Ok (TBool b)
  | VBase64 bs, RBytes => Ok (TBytes bs)
  | _, _ =>
      Err (UnexpectedStructure
             ("expected " ++ type_name expected ++ ", got " ++ value_shape v))
  end.

(** ** Row decoder *)

(** Modelled from the spec: decoding of one response row against the
    declared column types (raw multicall module, not in the sources). *)
Definition decode_row (cols : list ResultType) (row : list Value)
  : result (list TypedValue) Error :=
  if Nat.eqb (length row) (length cols)
  then collect_results (fun p => to_typed p.1 p.2) (combine row cols)
  else Err (UnexpectedStructure "multicall row width does not match columns").

(** Modelled from the spec: decoding of a whole multicall response, an
    array of rows, each an array of values. *)
Definition decode (raw : Value) (cols : list ResultType)
  : result (list (list TypedValue)) Error :=
  match raw with
  | VArray rows =>
      collect_results
        (fun r => match r with
                  | VArray vs => decode_row cols vs
                  | _ => Err (UnexpectedStructure "multicall row is not an array")
                  end) rows
  | _ => Err (UnexpectedStructure "multicall response is not an array")
  end.

(** ** Server handle ([src/exec.rs], lines 120-129) *)

(** An [Arc<T>] is a pointer to a shared, reference-counted allocation. *)
Abbreviation loc := nat (only parsing).

Record ServerInner := MkServerInner { endpoint : string }.

(** [pub struct Server { inner: Arc<ServerInner> }] *)
Record Server := MkServer { inner : loc }.

(** ** Operation descriptors *)

Inductive EntityKind := Download | File | Peer | Tracker.

(** The per-kind operation types ([DownloadMultiCallOp], ...) generated by
    [op_type!]: one type per entity kind, so a builder for one kind does
    not accept descriptors of another. *)
Record MultiCallOp (k : EntityKind) := MkOp {
  op_name : string;
  op_ty : ResultType
}.
Arguments MkOp {k} op_name op_ty.
Arguments op_name {k} _.
Arguments op_ty {k} _.

Definition DownloadMultiCallOp := MultiCallOp Download.

(** Modelled from the spec: [op_const!] ([multicall/ops.rs], not in the
    sources) builds the remote name by prefixing the short name with the
    namespace of the entity kind. *)
Definition op_const (k : EntityKind) (res : ResultType) (prefix api : string)
  : MultiCallOp k :=
  MkOp (prefix ++ api) res.

(** [d_op_const!] ([src/multicall/ops/d.rs], lines 74-78) *)
Definition d_op_const (res : ResultType) (api : string) : DownloadMultiCallOp :=
  op_const Download res "d." api.

(** The download-scoped constants ([src/multicall/ops/d.rs], lines 80-152). *)
Definition HASH := d_op_const RText "hash".
Definition BASE_FILENAME := d_op_const RText "base_filename".
Definition BASE_PATH := d_op_const RText "base_path".
Definition DIRECTORY := d_op_const RText "directory".
Definition DIRECTORY_BASE := d_op_const RText "directory_base".
Definition CHUNK_SIZE := d_op_const RInt64 "chunk_size".
Definition COMPLETE := d_op_const RBool "complete".
Definition INCOMPLETE := d_op_const RBool "incomplete".
Definition COMPLETED_BYTES := d_op_const RInt64 "completed_bytes".
Definition COMPLETED_CHUNKS := d_op_const RInt64 "completed_chunks".
Definition DOWN_RATE := d_op_const RInt64 "down.rate".
Definition DOWN_TOTAL := d_op_const RInt64 "down.total".
Definition IS_ACTIVE := d_op_const RBool "is_active".
Definition IS_OPEN := d_op_const RBool "is_open".
Definition IS_CLOSED := d_op_const RBool "is_closed".
Definition LOADED_FILE := d_op_const RText "loaded_file".
Definition MESSAGE := d_op_const RText "message".
Definition NAME := d_op_const RText "name".
Definition RATIO := d_op_const RFloat64 "ratio".
Definition SIZE_BYTES := d_op_const RInt64 "size_bytes".
Definition SIZE_FILES := d_op_const RInt64 "size_files".
Definition STATE := d_op_const RBool "state".
Definition TIED_TO_FILE := d_op_const RText "tied_to_file".
Definition TRACKER_SIZE := d_op_const RInt64 "tracker_size".
Definition UP_RATE := d_op_const RInt64 "up.rate".
Definition UP_TOTAL := d_op_const RInt64 "up.total".

(** The download constants of [src/multicall/ops/d.rs], in source order. *)
Definition d_catalog : list DownloadMultiCallOp :=
  [HASH; BASE_FILENAME; BASE_PATH; DIRECTORY; DIRECTORY_BASE; CHUNK_SIZE;
   COMPLETE; INCOMPLETE; COMPLETED_BYTES; COMPLETED_CHUNKS; DOWN_RATE;
   DOWN_TOTAL; IS_ACTIVE; IS_OPEN; IS_CLOSED; LOADED_FILE; MESSAGE; NAME;
   RATIO; SIZE_BYTES; SIZE_FILES; STATE; TIED_TO_FILE; TRACKER_SIZE;
   UP_RATE; UP_TOTAL].

(** ** Transport collaborator *)

(** One XML-RPC round trip: [Request::new(method).arg(..).call_url(endpoint)]. *)
Record Call := MkCall {
  call_server : Server;
  call_method : string;
  call_args : list Value
}.

Definition Transport := Server -> string -> list Value -> result Value XmlRpcError.

(** ** Raw multicall builder *)

(** Modelled from the spec: [raw::MultiBuilder] ([multicall/raw.rs], not
    in the sources).  It holds the server, the multicall method name and
    the argument list: the call target, the call filter, then one remote
    name per column. *)
Record RawMultiBuilder := MkRawMultiBuilder {
  rb_server : Server;
  rb_multicall : string;
  rb_args : list Value
}.

(** Modelled from the spec: [raw::MultiBuilder::new]. *)
Definition raw_new (server : Server) (multicall call_target call_filter : string)
  : RawMultiBuilder :=
  MkRawMultiBuilder server multicall [VString call_target; VString call_filter].

(** Modelled from the spec: [raw::MultiBuilder::call] appends a column. *)
Definition raw_call (b : RawMultiBuilder) (cmd : string) : RawMultiBuilder :=
  MkRawMultiBuilder (rb_server b) (rb_multicall b) (rb_args b ++ [VString cmd]).

(** ** Download multicall builder ([src/multicall/ops/d.rs]) *)

(** [d::MultiBuilder] and the builders [define_builder!] chains after it:
    the raw builder plus the accumulated column types (the phantom type
    parameters of the Rust builder types, in declaration order). *)
Record MultiBuilder := MkMultiBuilder {
  mb_inner : RawMultiBuilder;
  mb_cols : list ResultType
}.

(** [d::MultiBuilder::new] ([src/multicall/ops/d.rs], lines 60-64) *)
Definition new (server : Server) (view : string) : MultiBuilder :=
  MkMultiBuilder (raw_new server "d.multicall2" "" view) [].

(** Modelled from the spec: [.call(op)] of the builders generated by
    [define_builder!] ([multicall/ops.rs], not in the sources): adds the
    remote name to the call and extends the row type by [op]'s type. *)
Definition call (b : MultiBuilder) (op : DownloadMultiCallOp) : MultiBuilder :=
  MkMultiBuilder (raw_call (mb_inner b) (op_name op)) (mb_cols b ++ [op_ty op]).

Definition calls (b : MultiBuilder) (ops : list DownloadMultiCallOp) : MultiBuilder :=
  fold_left call ops b.

(** Modelled from the spec: [.invoke()]: one round trip through the
    transport (recorded in the returned trace), then the response is
    decoded against the accumulated column types. *)
Definition invoke (exec : Transport) (b : MultiBuilder)
  : list Call * result (list (list TypedValue)) Error :=
  let r := mb_inner b in
  ([MkCall (rb_server r) (rb_multicall r) (rb_args r)],
   let? raw := lift_xmlrpc (exec (rb_server r) (rb_multicall r) (rb_args r)) in
   decode raw (mb_cols b)).

(** Modelled from the spec: [prim_getter!] single-field accessors such as
    [Server::hostname]: one round trip, one value converted to the declared
    type. *)
Definition prim_get (exec : Transport) (server : Server) (method : string)
    (args : list Value) (res : ResultType) : result TypedValue Error :=
  let? v := lift_xmlrpc (exec server method args) in
  to_typed v res.

(** ** Sharing of the server endpoint through [Arc<ServerInner>] *)

Module ArcHeap.

(** The allocations behind [Arc<ServerInner>] pointers: each live cell
    holds its strong count and the [ServerInner] it owns.  Allocation
    addresses are never reused. *)
Record Heap := MkHeap {
  cells : gmap loc (nat * ServerInner);
  next : loc
}.

Definition wf (h : Heap) : Prop :=
  forall l, is_Some (cells h !! l) -> l < next h.

(** [Server { inner: Arc::new(ServerInner { endpoint }) }] *)
Definition server_new (h : Heap) (e : string) : Heap * Server :=
  (MkHeap (<[next h := (1, MkServerInner e)]> (cells h)) (S (next h)),
   MkServer (next h)).

(** [#[derive(Clone)] for Server]: [Arc::clone] bumps the strong count and
    returns the same pointer. *)
Definition server_clone (h : Heap) (s : Server) : Heap * Server :=
  match cells h !! inner s with
  | Some (c, si) => (MkHeap (<[inner s := (S c, si)]> (cells h)) (next h), s)
  | None => (h, s)
  end.

(** [Drop for Arc]: the last handle frees the allocation. *)
Definition server_drop (h : Heap) (s : Server) : Heap :=
  match cells h !! inner s with
  | Some (S (S c), si) => MkHeap (<[inner s := (S c, si)]> (cells h)) (next h)
  | Some _ => MkHeap (delete (inner s) (cells h)) (next h)
  | None => h
  end.

(** [&self.inner.endpoint]: the only access to [ServerInner] is a shared
    borrow through the [Arc]. *)
Definition endpoint_of (h : Heap) (s : Server) : option string :=
  (fun p => endpoint p.2) <$> cells h !! inner s.

Inductive HeapOp :=
| OpNew (e : string)
| OpClone (s : Server)
| OpDrop (s : Server).

Definition step (h : Heap) (o : HeapOp) : Heap :=
  match o with
  | OpNew e => (server_new h e).1
  | OpClone s => (server_clone h s).1
  | OpDrop s => server_drop h s
  end.

Definition run (h : Heap) (ops : list HeapOp) : Heap := fold_left step ops h.

End ArcHeap.

(** * Properties *)

(** ** The concrete scenario of the spec *)

Definition srv : Server := MkServer 0.
Definition ratio_1_5 : f64 := F64 4609434218613702656.  (* 1.5 *)
Definition ratio_0_0 : f64 := F64 0.                    (* 0.0 *)

Definition scenario_transport (width3 : bool) : Transport :=
  fun s m args =>
    if String.eqb m "d.multicall2" then
      Ok (VArray [VArray ([VString "Ubuntu.iso"; VDouble ratio_1_5]
                          ++ (if width3 then [VInt64 7] else []));
                  VArray [VString "Debian.iso"; VDouble ratio_0_0]])
    else Err (MkXmlRpcError "no such method").

Example scenario_two_rows :
  invoke (scenario_transport false) (calls (new srv "default") [NAME; RATIO])
  = ([MkCall srv "d.multicall2"
        [VString ""; VString "default"; VString "d.name"; VString "d.ratio"]],
     Ok [[TText "Ubuntu.iso"; TFloat64 ratio_1_5];
         [TText "Debian.iso"; TFloat64 ratio_0_0]]).
Proof. reflexivity. Qed.

Example scenario_width3 :
  exists s,
  (invoke (scenario_transport true) (calls (new srv "default") [NAME; RATIO])).2
  = Err (UnexpectedStructure s).
Proof. eexists. reflexivity. Qed.

(** ** Result collection *)

Lemma collect_results_Ok {A B E} (f : A -> result B E) (l : list A) (bs : list B) :
  collect_results f l = Ok bs <-> Forall2 (fun a b => f a = Ok b) l bs.
Proof.
  revert bs; induction l as [|a l IH]; intros bs; simpl.
  - split; intros H.
    + injection H as <-. constructor.
    + inversion H; reflexivity.
  - destruct (f a) as [b|e] eqn:Hf; simpl.
    + destruct (collect_results f l) as [bs'|e] eqn:Hc; simpl.
      * split; intros H.
        -- injection H as <-. constructor; [exact Hf|]. apply IH; reflexivity.
        -- inversion H as [|? ? ? bs'' Hfa Hrest]; subst.
           rewrite Hf in Hfa. injection Hfa as ->.
           apply IH in Hrest. injection Hrest as ->. reflexivity.
      * split; intros H; [discriminate|].
        inversion H as [|? ? ? bs'' Hfa Hrest]; subst.
        apply IH in Hrest. discriminate.
    + split; intros H; [discriminate|].
      inversion H as [|? ? ? bs'' Hfa Hrest]; subst. congruence.
Qed.

(** When every failure of [f] satisfies [P] and [f] fails somewhere in
    [l], the whole collection fails, with an error satisfying [P]. *)
Lemma collect_results_Err {A B E} (f : A -> result B E) (P : E -> Prop) (l : list A) :
  (forall a e, f a = Err e -> P e) ->
  (exists a e, In a l /\ f a = Err e) ->
  exists e, collect_results f l = Err e /\ P e.
Proof.
  intros HP [a [e [Hin Ha]]].
  induction l as [|a' l IH]; simpl in *; [contradiction|].
  destruct (f a') as [b|e'] eqn:Hf; simpl.
  - destruct Hin as [<-|Hin]; [congruence|].
    destruct (IH Hin) as [e'' [He'' HPe]]. rewrite He''. simpl. eauto.
  - exists e'. split; [reflexivity|]. eapply HP; exact Hf.
Qed.

Lemma collect_results_length {A B E} (f : A -> result B E) (l : list A) (bs : list B) :
  collect_results f l = Ok bs -> length bs = length l.
Proof.
  intros H. apply collect_results_Ok in H. symmetry. eapply Forall2_length; exact H.
Qed.

(** ** Value conversion *)

Lemma to_typed_Ok (v : Value) (t : ResultType) (x : TypedValue) :
  to_typed v t = Ok x -> wire_tag v = Some t /\ typed_tag x = t.
Proof. destruct v, t; simpl; intros H; try discriminate; injection H as <-; auto. Qed.

Lemma to_typed_matching (v : Value) (t : ResultType) :
  wire_tag v = Some t -> exists x, to_typed v t = Ok x.
Proof. destruct v, t; simpl; intros H; try discriminate; eauto. Qed.

Lemma to_typed_Err (v : Value) (t : ResultType) (e : Error) :
  to_typed v t = Err e -> exists s, e = UnexpectedStructure s.
Proof. destruct v, t; simpl; intros H; try discriminate; injection H as <-; eauto. Qed.

Lemma to_typed_mismatch (v : Value) (t : ResultType) :
  wire_tag v <> Some t -> exists s, to_typed v t = Err (UnexpectedStructure s).
Proof.
  intros Hne. destruct (to_typed v t) as [x|e] eqn:H.
  - apply to_typed_Ok in H. destruct H; contradiction.
  - apply to_typed_Err in H as [s ->]. eauto.
Qed.

(** ** Decoding *)

Lemma decode_row_Err (cols : list ResultType) (row : list Value) (e : Error) :
  decode_row cols row = Err e -> exists s, e = UnexpectedStructure s.
Proof.
  unfold decode_row. destruct (Nat.eqb _ _).
  - revert e. generalize (combine row cols) as ps.
    induction ps as [|[v t] ps IH]; simpl; intros e H; [discriminate|].
    destruct (to_typed v t) as [x|e'] eqn:Ht; simpl in H.
    + destruct (collect_results _ ps) eqn:Hc; simpl in H; [discriminate|].
      injection H as <-. eapply IH; reflexivity.
    + injection H as <-. eapply to_typed_Err; exact Ht.
  - intros H. injection H as <-. eauto.
Qed.

Lemma decode_rows (rows : list (list Value)) (cols : list ResultType) :
  decode (VArray (map VArray rows)) cols
  = collect_results (decode_row cols) rows.
Proof. simpl. induction rows as [|row rows IH]; simpl; [reflexivity|]. by rewrite IH. Qed.

Lemma decode_row_tags (row : list Value) (cols : list ResultType) (r : list TypedValue) :
  decode_row cols row = Ok r -> map typed_tag r = cols.
Proof.
  unfold decode_row. destruct (Nat.eqb _ _) eqn:Hlen; [|discriminate].
  apply Nat.eqb_eq in Hlen. intros H. apply collect_results_Ok in H.
  revert cols r Hlen H.
  induction row as [|v row IH]; intros [|t cols] r Hlen H; simpl in *;
    try discriminate; inversion H as [|? x ? r' Hx Hr]; subst; try reflexivity.
  apply to_typed_Ok in Hx as [_ Ht]. simpl. rewrite Ht.
  f_equal. apply IH; [lia|exact Hr].
Qed.

Lemma decode_row_matching (row : list Value) (cols : list ResultType) :
  Forall2 (fun v t => wire_tag v = Some t) row cols ->
  exists r, decode_row cols row = Ok r /\
    forall i v t, row !! i = Some v -> cols !! i = Some t ->
      exists x, to_typed v t = Ok x /\ r !! i = Some x.
Proof.
  intros Hm. unfold decode_row.
  rewrite (Forall2_length _ _ _ Hm), Nat.eqb_refl.
  induction Hm as [|v t row cols Hvt Hm IH]; simpl.
  - exists []. split; [reflexivity|]. intros i v t Hv. by rewrite lookup_nil in Hv.
  - destruct (to_typed_matching v t Hvt) as [x Hx]. rewrite Hx. simpl.
    destruct IH as [r [Hr Hi]]. rewrite Hr. simpl.
    exists (x :: r). split; [reflexivity|].
    intros [|i] v' t' Hv' Ht'; simpl in *.
    + injection Hv' as <-. injection Ht' as <-. eauto.
    + eauto.
Qed.

(** ** Building *)

Lemma calls_spec (b : MultiBuilder) (ops : list DownloadMultiCallOp) :
  calls b ops
  = MkMultiBuilder
      (MkRawMultiBuilder (rb_server (mb_inner b)) (rb_multicall (mb_inner b))
         (rb_args (mb_inner b) ++ map (fun op => VString (op_name op)) ops))
      (mb_cols b ++ map op_ty ops).
Proof.
  unfold calls. revert b. induction ops as [|op ops IH]; intros [[s m args] cols]; simpl.
  - by rewrite !app_nil_r.
  - rewrite IH. simpl. by rewrite <- !app_assoc.
Qed.

Lemma calls_new (server : Server) (view : string) (ops : list DownloadMultiCallOp) :
  calls (new server view) ops
  = MkMultiBuilder
      (MkRawMultiBuilder server "d.multicall2"
         (VString "" :: VString view :: map (fun op => VString (op_name op)) ops))
      (map op_ty ops).
Proof. by rewrite calls_spec. Qed.

(** ** Claims *)

Definition multicall_args (view : string) (ops : list DownloadMultiCallOp) : list Value :=
  VString "" :: VString view :: map (fun op => VString (op_name op)) ops.

(** C1: for every column sequence, when the transport answers the multicall
    with rows that each have exactly one value per column, with the wire
    tag of the column's type, [invoke] succeeds with one tuple per response
    row, in order, and the field at position [i] of tuple [j] is the
    conversion of value [i] of row [j]. *)
Theorem invoke_decodes_matching_rows (exec : Transport) (server : Server)
    (view : string) (ops : list DownloadMultiCallOp) (rows : list (list Value)) :
  exec server "d.multicall2" (multicall_args view ops) = Ok (VArray (map VArray rows)) ->
  Forall (fun row => Forall2 (fun v t => wire_tag v = Some t) row (map op_ty ops)) rows ->
  exists rs, (invoke exec (calls (new server view) ops)).2 = Ok rs /\
    length rs = length rows /\
    forall j i row v op, rows !! j = Some row -> row !! i = Some v -> ops !! i = Some op ->
      exists r x, rs !! j = Some r /\ to_typed v (op_ty op) = Ok x /\ r !! i = Some x.
Proof.
  intros Hexec Hrows. rewrite calls_new. unfold invoke, lift_xmlrpc.
  cbn [mb_inner rb_server rb_multicall rb_args mb_cols fst snd].
  unfold multicall_args in Hexec. rewrite Hexec. cbn [rbind]. rewrite decode_rows.
  set (cols := map op_ty ops) in *.
  assert (Hd : exists rs, collect_results (decode_row cols) rows = Ok rs /\
    forall j i row v t, rows !! j = Some row -> row !! i = Some v -> cols !! i = Some t ->
      exists r x, rs !! j = Some r /\ to_typed v t = Ok x /\ r !! i = Some x).
  { clear Hexec. induction Hrows as [|row rows Hrow Hrows IH]; cbn [collect_results].
    - exists []. split; [reflexivity|]. intros j ? ? ? ? Hj. by rewrite lookup_nil in Hj.
    - destruct (decode_row_matching row cols Hrow) as [r [Hr Hri]].
      destruct IH as [rs [Hrs Hj]]. rewrite Hr. cbn [rbind]. rewrite Hrs. cbn [rbind].
      exists (r :: rs). split; [reflexivity|].
      intros [|j] i row' v t Hrow' Hv Ht; simpl in *.
      + injection Hrow' as <-. destruct (Hri i v t Hv Ht) as [x [Hx Hi]]. eauto.
      + eauto. }
  destruct Hd as [rs [Hrs Hj]]. exists rs. split; [exact Hrs|]. split.
  - eapply collect_results_length; exact Hrs.
  - intros j i row v op Hrow Hv Hop. apply Hj with row; [exact Hrow|exact Hv|].
    unfold cols. clear -Hop. revert i Hop.
    induction ops as [|o ops IH]; intros [|i] Hop; simpl in *; try discriminate.
    + by injection Hop as ->.
    + by apply IH.
Qed.

Lemma invoke_decodes_matching_rows_witness :
  scenario_transport false srv "d.multicall2" (multicall_args "default" [NAME; RATIO])
    = Ok (VArray (map VArray [[VString "Ubuntu.iso"; VDouble ratio_1_5];
                              [VString "Debian.iso"; VDouble ratio_0_0]])) /\
  Forall (fun row => Forall2 (fun v t => wire_tag v = Some t) row (map op_ty [NAME; RATIO]))
    [[VString "Ubuntu.iso"; VDouble ratio_1_5]; [VString "Debian.iso"; VDouble ratio_0_0]] /\
  exists rs, (invoke (scenario_transport false) (calls (new srv "default") [NAME; RATIO])).2
             = Ok rs /\ length rs = 2.
Proof.
  assert (H1 : scenario_transport false srv "d.multicall2" (multicall_args "default" [NAME; RATIO])
    = Ok (VArray (map VArray [[VString "Ubuntu.iso"; VDouble ratio_1_5];
                              [VString "Debian.iso"; VDouble ratio_0_0]]))) by reflexivity.
  assert (H2 : Forall (fun row => Forall2 (fun v t => wire_tag v = Some t) row
                                    (map op_ty [NAME; RATIO]))
    [[VString "Ubuntu.iso"; VDouble ratio_1_5]; [VString "Debian.iso"; VDouble ratio_0_0]]).
  { repeat constructor. }
  split; [exact H1|]. split; [exact H2|].
  destruct (invoke_decodes_matching_rows _ _ _ _ _ H1 H2) as [rs [Hrs [Hlen _]]].
  exists rs. split; [exact Hrs|exact Hlen].
Defined.

(** C2: the builder over downloads in [view] with columns [ops] makes
    exactly one call, to ["d.multicall2"], with the arguments
    [""; view; remote names of ops in order]. *)
Theorem invoke_single_multicall2 (exec : Transport) (server : Server) (view : string)
    (ops : list DownloadMultiCallOp) :
  (invoke exec (calls (new server view) ops)).1
  = [MkCall server "d.multicall2"
       (VString "" :: VString view :: map (fun op => VString (op_name op)) ops)].
Proof. by rewrite calls_new. Qed.

Lemma combine_lookup (row : list Value) (cols : list ResultType) i v t :
  row !! i = Some v -> cols !! i = Some t -> combine row cols !! i = Some (v, t).
Proof.
  revert cols i. induction row as [|v' row IH]; intros [|t' cols] [|i] Hv Ht;
    simpl in *; try discriminate.
  - by injection Hv as ->; injection Ht as ->.
  - by apply IH.
Qed.

Lemma invoke_response (exec : Transport) (server : Server) (view : string)
    (ops : list DownloadMultiCallOp) (rows : list (list Value)) :
  exec server "d.multicall2" (multicall_args view ops) = Ok (VArray (map VArray rows)) ->
  (invoke exec (calls (new server view) ops)).2
  = collect_results (decode_row (map op_ty ops)) rows.
Proof.
  intros Hexec. rewrite calls_new. unfold invoke, lift_xmlrpc.
  cbn [mb_inner rb_server rb_multicall rb_args mb_cols fst snd].
  unfold multicall_args in Hexec. rewrite Hexec. cbn [rbind]. apply decode_rows.
Qed.

Lemma collect_decode_row_Err (cols : list ResultType) (rows : list (list Value)) :
  (exists row e, In row rows /\ decode_row cols row = Err e) ->
  exists s, collect_results (decode_row cols) rows = Err (UnexpectedStructure s).
Proof.
  intros Hex.
  destruct (collect_results_Err (decode_row cols)
              (fun e => exists s, e = UnexpectedStructure s) rows) as [e [He [s ->]]].
  - intros r e. apply decode_row_Err.
  - exact Hex.
  - eauto.
Qed.

Lemma collect_results_Err_inv {A B E} (f : A -> result B E) (P : E -> Prop)
    (l : list A) (e : E) :
  (forall a e, f a = Err e -> P e) -> collect_results f l = Err e -> P e.
Proof.
  intros HP. induction l as [|a l IH]; simpl; [discriminate|].
  destruct (f a) as [b|e'] eqn:Hf; cbn [rbind].
  - destruct (collect_results f l) eqn:Hc; cbn [rbind]; [discriminate|].
    intros H. injection H as <-. by apply IH.
  - intros H. injection H as <-. eapply HP; exact Hf.
Qed.

Lemma decode_Err (raw : Value) (cols : list ResultType) (e : Error) :
  decode raw cols = Err e -> exists s, e = UnexpectedStructure s.
Proof.
  destruct raw as [| | | | |rows]; simpl; try (intros H; injection H as <-; eauto).
  apply (collect_results_Err_inv _ (fun e => exists s, e = UnexpectedStructure s)).
  intros [| | | | |vs] e'; simpl;
    try (intros H; injection H as <-; eauto).
  apply decode_row_Err.
Qed.

(** C3: when some response row does not have one value per column,
    [invoke] fails with [UnexpectedStructure]: no rows are returned. *)
Theorem invoke_fails_on_row_width (exec : Transport) (server : Server) (view : string)
    (ops : list DownloadMultiCallOp) (rows : list (list Value)) :
  exec server "d.multicall2" (multicall_args view ops) = Ok (VArray (map VArray rows)) ->
  (exists row, In row rows /\ length row <> length ops) ->
  exists s, (invoke exec (calls (new server view) ops)).2 = Err (UnexpectedStructure s).
Proof.
  intros Hexec [row [Hin Hlen]]. rewrite (invoke_response _ _ _ _ _ Hexec).
  apply collect_decode_row_Err. exists row. unfold decode_row.
  destruct (Nat.eqb _ _) eqn:E; [|eauto].
  apply Nat.eqb_eq in E. rewrite length_map in E. contradiction.
Qed.

Lemma invoke_fails_on_row_width_witness :
  exists s, (invoke (scenario_transport true) (calls (new srv "default") [NAME; RATIO])).2
            = Err (UnexpectedStructure s).
Proof.
  apply (invoke_fails_on_row_width (scenario_transport true) srv "default" [NAME; RATIO]
           [[VString "Ubuntu.iso"; VDouble ratio_1_5; VInt64 7];
            [VString "Debian.iso"; VDouble ratio_0_0]]).
  - reflexivity.
  - exists [VString "Ubuntu.iso"; VDouble ratio_1_5; VInt64 7].
    split; [left; reflexivity | simpl; lia].
Defined.

(** C4: when some response value has a wire tag other than its column's
    declared type, [invoke] fails with [UnexpectedStructure]: no tuple is
    returned for that row, nor for any other. *)
Theorem invoke_fails_on_tag_mismatch (exec : Transport) (server : Server) (view : string)
    (ops : list DownloadMultiCallOp) (rows : list (list Value)) :
  exec server "d.multicall2" (multicall_args view ops) = Ok (VArray (map VArray rows)) ->
  (exists row i v op, In row rows /\ row !! i = Some v /\ ops !! i = Some op /\
                      wire_tag v <> Some (op_ty op)) ->
  exists s, (invoke exec (calls (new server view) ops)).2 = Err (UnexpectedStructure s).
Proof.
  intros Hexec [row [i [v [op [Hin [Hv [Hop Hne]]]]]]].
  rewrite (invoke_response _ _ _ _ _ Hexec).
  apply collect_decode_row_Err. exists row. unfold decode_row.
  destruct (Nat.eqb _ _).
  - destruct (collect_results_Err (fun p : Value * ResultType => to_typed p.1 p.2)
                (fun e => exists s, e = UnexpectedStructure s)
                (combine row (map op_ty ops))) as [e [He _]].
    + intros [v' t'] e. apply to_typed_Err.
    + destruct (to_typed_mismatch v (op_ty op) Hne) as [s Hs].
      exists (v, op_ty op), (UnexpectedStructure s). split; [|exact Hs].
      apply list_elem_of_In. eapply list_elem_of_lookup_2. apply combine_lookup; [exact Hv|].
      clear -Hop. revert i Hop.
      induction ops as [|o ops IH]; intros [|i] Hop; simpl in *; try discriminate.
      * by injection Hop as ->.
      * by apply IH.
    + eauto.
  - eauto.
Qed.

Lemma invoke_fails_on_tag_mismatch_witness :
  exists s, (invoke (scenario_transport false) (calls (new srv "default") [NAME; SIZE_BYTES])).2
            = Err (UnexpectedStructure s).
Proof.
  apply (invoke_fails_on_tag_mismatch (scenario_transport false) srv "default" [NAME; SIZE_BYTES]
           [[VString "Ubuntu.iso"; VDouble ratio_1_5];
            [VString "Debian.iso"; VDouble ratio_0_0]]).
  - reflexivity.
  - exists [VString "Ubuntu.iso"; VDouble ratio_1_5], 1, (VDouble ratio_1_5), SIZE_BYTES.
    split; [left; reflexivity|]. split; [reflexivity|]. split; [reflexivity|].
    simpl. discriminate.
Defined.

(** C5: a download-scoped descriptor built from the short name [api] has
    the remote name ["d." ++ api]; the name depends on the kind and the
    short name only, so re-deriving it always gives the same string. *)
Theorem d_op_const_remote_name (api : string) (res res' : ResultType) :
  op_name (d_op_const res api) = "d." ++ api /\
  op_name (d_op_const res api) = op_name (d_op_const res' api) /\
  op_name NAME = "d.name".
Proof. repeat split. Qed.

(** C6: the i-th descriptor added is the i-th remote name after the two
    leading arguments, its type is the i-th declared column type, and it
    is the type of the i-th field of every decoded tuple. *)
Theorem column_order_preserved (exec : Transport) (server : Server) (view : string)
    (ops : list DownloadMultiCallOp) :
  rb_args (mb_inner (calls (new server view) ops))
    = VString "" :: VString view :: map (fun op => VString (op_name op)) ops /\
  mb_cols (calls (new server view) ops) = map op_ty ops /\
  forall rs, (invoke exec (calls (new server view) ops)).2 = Ok rs ->
    Forall (fun r => map typed_tag r = map op_ty ops) rs.
Proof.
  rewrite calls_new. split; [reflexivity|]. split; [reflexivity|].
  intros rs. unfold invoke, lift_xmlrpc.
  cbn [mb_inner rb_server rb_multicall rb_args mb_cols fst snd].
  destruct (exec _ _ _) as [raw|x]; cbn [rbind]; [|discriminate].
  destruct raw as [| | | | |rows]; simpl; try discriminate.
  intros H. apply collect_results_Ok in H.
  induction H as [|row r rows rs Hr Hrs IH]; constructor; [|exact IH].
  destruct row; try discriminate. eapply decode_row_tags; exact Hr.
Qed.

Lemma column_order_preserved_witness :
  Forall (fun r => map typed_tag r = [RText; RFloat64])
    [[TText "Ubuntu.iso"; TFloat64 ratio_1_5]; [TText "Debian.iso"; TFloat64 ratio_0_0]].
Proof.
  destruct (column_order_preserved (scenario_transport false) srv "default" [NAME; RATIO])
    as [_ [_ H]].
  apply H. reflexivity.
Defined.

(** C7: every error of [invoke] and of a single-field call is either the
    transport's error wrapped as [XmlRpc], when the round trip failed, or an
    [UnexpectedStructure], when it succeeded; a transport error is always
    wrapped as [XmlRpc] unchanged. *)
Theorem errors_two_kinds (exec : Transport) (b : MultiBuilder) (server : Server)
    (method : string) (args : list Value) (res : ResultType) :
  (let r := mb_inner b in
   (forall x, exec (rb_server r) (rb_multicall r) (rb_args r) = Err x ->
              (invoke exec b).2 = Err (XmlRpc x)) /\
   (forall e, (invoke exec b).2 = Err e ->
      (exists x, exec (rb_server r) (rb_multicall r) (rb_args r) = Err x /\ e = XmlRpc x) \/
      (exists raw s, exec (rb_server r) (rb_multicall r) (rb_args r) = Ok raw /\
                     e = UnexpectedStructure s))) /\
  (forall x, exec server method args = Err x ->
             prim_get exec server method args res = Err (XmlRpc x)) /\
  (forall e, prim_get exec server method args res = Err e ->
     (exists x, exec server method args = Err x /\ e = XmlRpc x) \/
     (exists raw s, exec server method args = Ok raw /\ e = UnexpectedStructure s)).
Proof.
  unfold invoke, prim_get, lift_xmlrpc, from_xmlrpc. cbn [fst snd].
  repeat split.
  - intros x Hx. rewrite Hx. reflexivity.
  - intros e. destruct (exec _ _ _) as [raw|x] eqn:Hx; cbn [rbind].
    + intros He. right. destruct (decode raw (mb_cols b)) eqn:Hd; [discriminate|].
      injection He as <-. exists raw. apply decode_Err in Hd as [s ->]. eauto.
    + intros He. injection He as <-. left. eauto.
  - intros x Hx. rewrite Hx. reflexivity.
  - intros e. destruct (exec _ _ _) as [raw|x] eqn:Hx; cbn [rbind].
    + intros He. right. exists raw. apply to_typed_Err in He as [s ->]. eauto.
    + intros He. injection He as <-. left. eauto.
Qed.

Lemma errors_two_kinds_witness :
  prim_get (scenario_transport false) srv "system.hostname" [] RText
  = Err (XmlRpc (MkXmlRpcError "no such method")).
Proof.
  destruct (errors_two_kinds (scenario_transport false) (new srv "default") srv
              "system.hostname" [] RText) as [_ [H _]].
  apply H. reflexivity.
Defined.

(** C8: a builder with no columns, invoked against [n] rows of width 0,
    succeeds with [n] empty tuples. *)
Theorem zero_columns_empty_tuples (exec : Transport) (server : Server) (view : string)
    (n : nat) :
  exec server "d.multicall2" (multicall_args view []) = Ok (VArray (repeat (VArray []) n)) ->
  (invoke exec (new server view)).2 = Ok (repeat [] n).
Proof.
  intros Hexec.
  assert (Hr : repeat (VArray []) n = map VArray (repeat [] n)).
  { clear Hexec. induction n as [|n IH]; simpl; [reflexivity|]. by rewrite IH. }
  rewrite Hr in Hexec.
  etransitivity; [exact (invoke_response exec server view [] _ Hexec)|]. clear Hexec Hr.
  induction n as [|n IH]; cbn [repeat collect_results]; [reflexivity|]. rewrite IH. reflexivity.
Qed.

Lemma zero_columns_empty_tuples_witness :
  (invoke (fun _ _ _ => Ok (VArray (repeat (VArray []) 3))) (new srv "default")).2
  = Ok [[]; []; []].
Proof. apply (zero_columns_empty_tuples _ srv "default" 3). reflexivity. Defined.

(** C9: [source()] is the wrapped [xmlrpc::Error] for [XmlRpc] and [None]
    for [UnexpectedStructure]. *)
Theorem source_spec :
  (forall x, source (XmlRpc x) = Some x) /\
  (forall s, source (UnexpectedStructure s) = None).
Proof. split; reflexivity. Qed.

(** ** Sharing of the endpoint *)

Section ArcHeapFacts.
Import ArcHeap.

Lemma step_next (h : Heap) (o : HeapOp) : next h <= next (step h o).
Proof.
  destruct o as [e|s|s] ; unfold step, server_new, server_clone, server_drop; cbn [cells next fst].
  - lia.
  - destruct (cells h !! inner s) as [[c si]|] ; cbn [cells next fst step]; lia.
  - destruct (cells h !! inner s) as [[[|[|c]] si]|] ; cbn [cells next fst step]; lia.
Qed.

Lemma step_wf (h : Heap) (o : HeapOp) : wf h -> wf (step h o).
Proof.
  unfold wf. intros Hwf l Hl.
  destruct o as [e|s|s]; cbn [cells next fst step] in *; unfold server_new, server_clone, server_drop in *.
  - cbn [cells next fst step] in *. destruct (decide (l = next h)) as [->|Hne]; [lia|].
    rewrite lookup_insert_ne in Hl by congruence. specialize (Hwf l Hl). lia.
  - destruct (cells h !! inner s) as [[c si]|] eqn:Hs; cbn [cells next fst step] in *; [|auto].
    destruct (decide (l = inner s)) as [->|Hne].
    + apply Hwf. rewrite Hs. eauto.
    + rewrite lookup_insert_ne in Hl by congruence. auto.
  - destruct (cells h !! inner s) as [[[|[|c]] si]|] eqn:Hs; cbn [cells next fst step] in *; [| | |auto].
    + apply Hwf. destruct (decide (l = inner s)) as [->|Hne].
      * rewrite Hs. eauto.
      * by rewrite lookup_delete_ne in Hl by congruence.
    + apply Hwf. destruct (decide (l = inner s)) as [->|Hne].
      * rewrite Hs. eauto.
      * by rewrite lookup_delete_ne in Hl by congruence.
    + apply Hwf. destruct (decide (l = inner s)) as [->|Hne].
      * rewrite Hs. eauto.
      * by rewrite lookup_insert_ne in Hl by congruence.
Qed.

(** A freed allocation is never reused. *)
Lemma step_dead (h : Heap) (o : HeapOp) (l : loc) :
  l < next h -> cells h !! l = None -> cells (step h o) !! l = None.
Proof.
  intros Hlt Hl.
  destruct o as [e|s|s] ; unfold step, server_new, server_clone, server_drop; cbn [cells next fst].
  - cbn [cells next fst]. rewrite lookup_insert_ne by lia. exact Hl.
  - destruct (cells h !! inner s) as [[c si]|] eqn:Hs ; cbn [cells next fst step]; [|exact Hl].
    rewrite lookup_insert_ne by congruence. exact Hl.
  - destruct (cells h !! inner s) as [[[|[|c]] si]|] eqn:Hs ; cbn [cells next fst step]; try exact Hl.
    + destruct (decide (l = inner s)) as [->|Hne]; [congruence|].
      by rewrite lookup_delete_ne by congruence.
    + destruct (decide (l = inner s)) as [->|Hne]; [congruence|].
      by rewrite lookup_delete_ne by congruence.
    + rewrite lookup_insert_ne by congruence. exact Hl.
Qed.

(** No step writes a different [ServerInner] into a live allocation. *)
Lemma step_payload (h : Heap) (o : HeapOp) (l : loc) (c : nat) (x : ServerInner) :
  wf h -> cells h !! l = Some (c, x) ->
  cells (step h o) !! l = None \/ exists c', cells (step h o) !! l = Some (c', x).
Proof.
  intros Hwf Hl.
  destruct o as [e|s|s] ; unfold step, server_new, server_clone, server_drop; cbn [cells next fst].
  - cbn [cells next fst]. assert (l < next h) by (apply Hwf; rewrite Hl; eauto).
    rewrite lookup_insert_ne by lia. eauto.
  - destruct (cells h !! inner s) as [[c' si]|] eqn:Hs ; cbn [cells next fst step]; [|eauto].
    destruct (decide (l = inner s)) as [->|Hne].
    + rewrite lookup_insert_eq. rewrite Hs in Hl. injection Hl as -> ->. eauto.
    + rewrite lookup_insert_ne by congruence. eauto.
  - destruct (decide (l = inner s)) as [->|Hne].
    + rewrite Hl.
      destruct c as [|[|c']]; cbn [cells next fst].
      * left. apply lookup_delete_eq.
      * left. apply lookup_delete_eq.
      * right. rewrite lookup_insert_eq. eauto.
    + destruct (cells h !! inner s) as [[[|[|c']] si]|]; cbn [cells next fst];
        [rewrite lookup_delete_ne by congruence
        |rewrite lookup_delete_ne by congruence
        |rewrite lookup_insert_ne by congruence
        |]; eauto.
Qed.

Lemma run_dead (ops : list HeapOp) (h : Heap) (l : loc) :
  l < next h -> cells h !! l = None -> cells (run h ops) !! l = None.
Proof.
  unfold run. revert h. induction ops as [|o ops IH]; intros h Hlt Hl ; cbn [fold_left]; [exact Hl|].
  apply IH; [pose proof (step_next h o); lia|]. by apply step_dead.
Qed.

Lemma run_payload (ops : list HeapOp) (h : Heap) (l : loc) (c1 c2 : nat) (x y : ServerInner) :
  wf h -> cells h !! l = Some (c1, x) -> cells (run h ops) !! l = Some (c2, y) -> x = y.
Proof.
  unfold run. revert h c1. induction ops as [|o ops IH]; intros h c1 Hwf Hl Hr; cbn [fold_left] in *.
  - rewrite Hl in Hr. congruence.
  - assert (Hlt : l < next h) by (apply Hwf; rewrite Hl; eauto).
    destruct (step_payload h o l c1 x Hwf Hl) as [Hd|[c' Hs]].
    + pose proof (step_next h o).
      pose proof (run_dead ops (step h o) l ltac:(lia) Hd) as Hnone.
      unfold run in Hnone. congruence.
    + eapply IH; [apply step_wf; exact Hwf|exact Hs|exact Hr].
Qed.

End ArcHeapFacts.

(** C10: cloning a live [Server] returns a handle with the same [Arc]
    pointer, whose allocation holds the same [ServerInner] (only the strong
    count changes, no other allocation is touched), so both handles read
    the same endpoint; and no later sequence of creations, clones and drops
    ever changes the [ServerInner] held by a live allocation. *)
Theorem server_clone_shares_endpoint (h : ArcHeap.Heap) (s : Server) (c : nat)
    (si : ServerInner) :
  ArcHeap.wf h -> ArcHeap.cells h !! inner s = Some (c, si) ->
  let h' := (ArcHeap.server_clone h s).1 in
  let s' := (ArcHeap.server_clone h s).2 in
  inner s' = inner s /\
  ArcHeap.cells h' !! inner s' = Some (S c, si) /\
  (forall l, l <> inner s -> ArcHeap.cells h' !! l = ArcHeap.cells h !! l) /\
  ArcHeap.endpoint_of h' s' = Some (endpoint si) /\
  ArcHeap.endpoint_of h s = Some (endpoint si) /\
  (forall ops l c1 c2 x y, ArcHeap.cells h' !! l = Some (c1, x) ->
     ArcHeap.cells (ArcHeap.run h' ops) !! l = Some (c2, y) -> x = y).
Proof.
  intros Hwf Hs. unfold ArcHeap.server_clone, ArcHeap.endpoint_of. rewrite Hs.
  cbn [fst snd ArcHeap.cells]. repeat split.
  - by rewrite lookup_insert_eq.
  - intros l Hne. by rewrite lookup_insert_ne by congruence.
  - by rewrite lookup_insert_eq.
  - intros ops l c1 c2 x y Hl Hr.
    apply (run_payload ops (ArcHeap.MkHeap (<[inner s:=(S c, si)]> (ArcHeap.cells h))
                              (ArcHeap.next h)) l c1 c2 x y); [|exact Hl|exact Hr].
    apply (step_wf h (ArcHeap.OpClone s)) in Hwf.
    unfold ArcHeap.step, ArcHeap.server_clone in Hwf. rewrite Hs in Hwf. exact Hwf.
Qed.

Lemma server_clone_shares_endpoint_witness :
  ArcHeap.endpoint_of
    (ArcHeap.server_clone (ArcHeap.server_new (ArcHeap.MkHeap ∅ 0) "http://1.2.3.4/RPC2").1
       (ArcHeap.server_new (ArcHeap.MkHeap ∅ 0) "http://1.2.3.4/RPC2").2).1
    (ArcHeap.server_new (ArcHeap.MkHeap ∅ 0) "http://1.2.3.4/RPC2").2
  = Some "http://1.2.3.4/RPC2".
Proof.
  destruct (server_clone_shares_endpoint
              (ArcHeap.server_new (ArcHeap.MkHeap ∅ 0) "http://1.2.3.4/RPC2").1
              (ArcHeap.server_new (ArcHeap.MkHeap ∅ 0) "http://1.2.3.4/RPC2").2
              1 (MkServerInner "http://1.2.3.4/RPC2")) as [_ [_ [_ [H _]]]].
  - intros l Hl. cbn [ArcHeap.server_new fst ArcHeap.cells ArcHeap.next] in *.
    destruct (decide (l = 0)) as [->|Hne]; [lia|].
    rewrite lookup_insert_ne in Hl by congruence. rewrite lookup_empty in Hl.
    destruct Hl as [? Hl]; discriminate.
  - vm_compute. reflexivity.
  - exact H.
Defined.

(** * Further properties of the code *)

Lemma string_app_cancel_l (p a b : string) : p ++ a = p ++ b -> a = b.
Proof. induction p as [|c p IH]; simpl; [auto|]. intros H. injection H. exact IH. Qed.

Lemma string_prefix_app (p a : string) : String.prefix p (p ++ a) = true.
Proof.
  induction p as [|c p IH]; simpl; [by destruct a|].
  destruct (Ascii.ascii_dec c c); [exact IH|contradiction].
Qed.

(** X1: displaying an error loses nothing: the text names the variant by
    its prefix and carries the payload, so two errors with the same text
    are the same error. *)
Theorem fmt_injective (e1 e2 : Error) : fmt e1 = fmt e2 -> e1 = e2.
Proof.
  destruct e1 as [[m1]|s1], e2 as [[m2]|s2]; cbn [fmt xe_msg]; intros H.
  - apply string_app_cancel_l in H. by subst.
  - discriminate H.
  - discriminate H.
  - apply string_app_cancel_l in H. by subst.
Qed.

Lemma fmt_injective_witness :
  fmt (UnexpectedStructure "row") = fmt (UnexpectedStructure "row") /\
  UnexpectedStructure "row" = UnexpectedStructure "row".
Proof. split; [reflexivity|]. apply fmt_injective. reflexivity. Defined.

(** X2: an error has a [source()] exactly when its displayed text does not
    start with "Unexpected XML structure: ", i.e. exactly when it is the
    wrapped transport error, displayed as "XML-RPC: ..." *)
Theorem fmt_prefix_source (e : Error) :
  (String.prefix "Unexpected XML structure: " (fmt e) = true <-> source e = None) /\
  (String.prefix "XML-RPC: " (fmt e) = true <-> source e <> None).
Proof.
  destruct e as [[m]|us]; cbn [fmt source xe_msg]; split; split; intros H;
    try reflexivity; try discriminate; try congruence.
  all: first [apply string_prefix_app | exfalso; apply H; reflexivity].
Qed.

(** X3: the download constants of the catalog all have different remote
    names, so no two of them query the same field. *)
Theorem d_catalog_names_distinct : NoDup (map op_name d_catalog).
Proof. apply (bool_decide_unpack _). vm_compute. reflexivity. Qed.

(** X4: cloning a live [Server] and dropping the clone gives back the heap
    as it was: the strong count returns to its value and the allocation is
    neither freed nor changed. *)
Theorem server_clone_drop (h : ArcHeap.Heap) (s : Server) (c : nat) (si : ServerInner) :
  ArcHeap.cells h !! inner s = Some (S c, si) ->
  ArcHeap.server_drop (ArcHeap.server_clone h s).1 (ArcHeap.server_clone h s).2 = h.
Proof.
  intros Hs. destruct h as [cs nx]. cbn [ArcHeap.cells] in Hs.
  unfold ArcHeap.server_clone, ArcHeap.server_drop. cbn [ArcHeap.cells]. rewrite Hs.
  cbn [fst snd ArcHeap.cells ArcHeap.next]. rewrite lookup_insert_eq.
  f_equal. rewrite insert_insert_eq. by apply insert_id.
Qed.

Lemma server_clone_drop_witness :
  ArcHeap.server_drop
    (ArcHeap.server_clone (ArcHeap.server_new (ArcHeap.MkHeap ∅ 0) "http://1.2.3.4/RPC2").1
       (MkServer 0)).1 (MkServer 0)
  = (ArcHeap.server_new (ArcHeap.MkHeap ∅ 0) "http://1.2.3.4/RPC2").1.
Proof.
  pose proof (server_clone_drop
                (ArcHeap.server_new (ArcHeap.MkHeap ∅ 0) "http://1.2.3.4/RPC2").1
                (MkServer 0) 0 (MkServerInner "http://1.2.3.4/RPC2")) as H.
  apply H. reflexivity.
Defined.
